(** * Shallow embedding of bedrock-pr-reviewer: [src/bot.ts] and
    [src/sopRetriever.ts].

    Asynchronous TypeScript code is modelled as sequential code: every
    [await] point becomes a call to an explicit environment record that
    fixes the behaviour of the external services (the Bedrock client,
    [JSON.stringify], the Pinecone client, the transformers pipeline).
    Thrown exceptions are the [Throw] case of [Exc]; module-level [let]
    variables are threaded as explicit state. *)

From Stdlib Require Import String List Ascii ZArith QArith Qround Qabs Lia Bool.
Import ListNotations.
Open Scope string_scope.
Set Warnings "-register-all".

(** ** Exceptions *)

(** Thrown values: every error in this code is an [Error] whose
    [message] is kept. *)
Definition err := string.

Inductive Exc (A : Type) : Type :=
| Ok : A -> Exc A
| Throw : err -> Exc A.
Arguments Ok {A} _.
Arguments Throw {A} _.

(** ** Decimal rendering of naturals (JS [Number::toString] on small
    non-negative integers). *)

Fixpoint uint_to_string (u : Decimal.uint) : string :=
  match u with
  | Decimal.Nil => ""
  | Decimal.D0 u => String "0" (uint_to_string u)
  | Decimal.D1 u => String "1" (uint_to_string u)
  | Decimal.D2 u => String "2" (uint_to_string u)
  | Decimal.D3 u => String "3" (uint_to_string u)
  | Decimal.D4 u => String "4" (uint_to_string u)
  | Decimal.D5 u => String "5" (uint_to_string u)
  | Decimal.D6 u => String "6" (uint_to_string u)
  | Decimal.D7 u => String "7" (uint_to_string u)
  | Decimal.D8 u => String "8" (uint_to_string u)
  | Decimal.D9 u => String "9" (uint_to_string u)
  end.

Definition nat_to_string (n : nat) : string :=
  uint_to_string (Nat.to_uint n).

(** JS truthiness of a string: [!s] is [negb (truthy_str s)] *)
Definition truthy_str (s : string) : bool :=
  match s with EmptyString => false | _ => true end.

(** ** [src/bot.ts] *)

Module Bot.

(** A JSON document ([DocumentType] of the AWS SDK, and the
    [Record<string, any>] of a schema's parameters). *)
Inductive Doc : Type :=
| DNull
| DBool (b : bool)
| DNum (q : Q)
| DStr (s : string)
| DArr (xs : list Doc)
| DObj (kvs : list (string * Doc))
| DBigInt (z : Z).

(** [export interface Ids] *)
Record Ids := mkIds {
  parentMessageId : option string;
  conversationId : option string
}.

(** [{}] *)
Definition ids_empty : Ids := mkIds None None.

(** [export interface JsonSchema] *)
Record JsonSchema := mkJsonSchema {
  js_name : string;
  js_description : string;
  js_parameters : list (string * Doc)
}.

Definition schema_doc (s : JsonSchema) : Doc :=
  DObj [("name", DStr (js_name s));
        ("description", DStr (js_description s));
        ("parameters", DObj (js_parameters s))].

(** Bedrock [ContentBlock]: a union; only the [text] and [toolUse]
    members are inspected by the code, the others are [COther]. *)
Inductive ContentBlock : Type :=
| CText (t : string)
| CToolUse (input : Doc)
| COther.

Record Message := mkMessage {
  content : option (list ContentBlock)
}.

Record ResponseMetadata := mkMeta {
  requestId : option string;
  cfId : option string
}.

(** [ConverseCommandOutput]: [output.message] may be absent. *)
Record Response := mkResponse {
  output_message : option Message;
  r_metadata : ResponseMetadata
}.

Record ToolSpec := mkToolSpec {
  ts_name : string;
  ts_description : string;
  ts_inputSchema : list (string * Doc)
}.

(** [ConverseCommandInput] as built by [chat_]. *)
Record ConverseInput := mkInput {
  modelId : string;
  user_text : string;
  maxTokens : nat;
  temperature : nat;
  toolConfig : option (list ToolSpec)
}.

(** A value thrown by one attempt of the send, as [pRetry] tells them
    apart:
    - [FError m]: an [Error] that is neither a [TypeError] nor an
      [AbortError], with message [m];
    - [FTypeError m net]: a [TypeError] with message [m], where [net] is
      [isNetworkError(error)];
    - [FAbort m]: an [AbortError], whose [originalError] has message [m];
    - [FNonError v]: a thrown value that is not an [Error], [v] being
      its rendering [`${error}`]. *)
Inductive Failure : Type :=
| FError : string -> Failure
| FTypeError : string -> bool -> Failure
| FAbort : string -> Failure
| FNonError : string -> Failure.

(** The outcome of one attempt: a result, or a thrown value. *)
Inductive Attempt (A : Type) : Type :=
| Done : A -> Attempt A
| Failed : Failure -> Attempt A.
Arguments Done {A} _.
Arguments Failed {A} _.

(** The environment: options and the behaviour of external code.
    [send req i] is the outcome of the [i]-th attempt (from 0) of
    [this.client.send(new ConverseCommand(req))]; [json_stringify] is
    [JSON.stringify], which may throw (cycles, BigInt). *)
Record Env := mkEnv {
  language : string;
  debug : bool;
  bedrockRetries : nat;
  model : string;
  send : ConverseInput -> nat -> Attempt Response;
  json_stringify : Doc -> Exc string
}.

(** [RetryOperation.prototype.mainError] of the [retry] package, on the
    messages of the recorded errors: the error whose message occurs most
    often, the later one on a tie; [null] when none was recorded.  The
    message counts [counts[message]] are those of the list [seen] of
    messages already visited. *)
Fixpoint mainError_loop (seen errors : list string)
    (mainError : option string) (mainErrorCount : nat) : option string :=
  match errors with
  | [] => mainError
  | message :: rest =>
      let count := S (count_occ string_dec seen message) in
      if Nat.leb mainErrorCount count
      then mainError_loop (seen ++ [message])%list rest (Some message) count
      else mainError_loop (seen ++ [message])%list rest mainError
                          mainErrorCount
  end.

Definition mainError (errors : list string) : option string :=
  mainError_loop [] errors None 0.

(** The message of the [TypeError] that [pRetry] throws for a thrown
    non-[Error] value. *)
Definition non_error_message (v : string) : string :=
  "Non-error was thrown: " ++ String "034" (v ++ String "034"
    ". You should only throw errors.").

(** [pRetry(input, {retries})] (p-retry 4 to 6, with the default
    [shouldRetry] and [onFailedAttempt]) from attempt [i], with
    [retries] retry timeouts left and [errors] the messages of the
    errors recorded by [operation.retry] so far.  A success resolves.  A
    non-[Error] rejects at once with a [TypeError]; an [AbortError]
    rejects at once with its [originalError]; a [TypeError] that is not
    a network error rejects at once with itself.  Any other error is
    recorded and retried while timeouts are left; when none is left the
    promise rejects with [operation.mainError()] (never [null] here, the
    error just recorded being among [errors]). *)
Fixpoint p_retry_loop {A} (input : nat -> Attempt A) (i retries : nat)
    (errors : list string) : Exc A :=
  match input i with
  | Done a => Ok a
  | Failed (FNonError v) => Throw (non_error_message v)
  | Failed (FAbort m) => Throw m
  | Failed (FTypeError m false) => Throw m
  | Failed (FError m) | Failed (FTypeError m true) =>
      let errors := (errors ++ [m])%list in
      match retries with
      | O => match mainError errors with
             | Some e => Throw e
             | None => Throw m
             end
      | S r => p_retry_loop input (S i) r errors
      end
  end.

Definition p_retry {A} (input : nat -> Attempt A) (retries : nat) : Exc A :=
  p_retry_loop input 0 retries [].

(** Lines 73-107: the request. *)
Definition command_params (env : Env) (message : string)
    (jsonSchema : option JsonSchema) : ConverseInput :=
  mkInput (model env) message 4096 0
    (match jsonSchema with
     | Some s => Some [mkToolSpec (js_name s) (js_description s)
                                  (js_parameters s)]
     | None => None
     end).

(** Lines 72-117: [response] after the guarded send; a failure leaves
    [response] undefined. *)
Definition send_outcome (env : Env) (message : string)
    (jsonSchema : option JsonSchema) : Exc Response :=
  p_retry (send env (command_params env message jsonSchema))
          (bedrockRetries env).

Definition response_of (r : Exc Response) : option Response :=
  match r with Ok r => Some r | Throw _ => None end.

(** Lines 128-138: one iteration of [for (const item of content)]. *)
Definition step (env : Env) (responseText : string) (item : ContentBlock)
    : string :=
  match item with
  | CText t =>
      if truthy_str t then responseText ++ t
      else responseText
  | CToolUse input =>
      match json_stringify env input with
      | Ok s => s
      | Throw _ => ""
      end
  | COther => responseText
  end.

(** Lines 123-142: normalisation of the response. *)
Definition normalize (env : Env) (response : option Response) : string :=
  match response with
  | Some r =>
      match output_message r with
      | Some m =>
          let content := match content m with Some c => c | None => [] end in
          fold_left (step env) content ""
      | None => ""
      end
  | None => ""
  end.

(** Lines 146-149. *)
Definition new_ids (response : option Response) : Ids :=
  match response with
  | Some r => mkIds (requestId (r_metadata r)) (cfId (r_metadata r))
  | None => ids_empty
  end.

(** Line 63: the language instruction prepended to the message. *)
Definition prompt (env : Env) (message : string) : string :=
  "IMPORTANT: Entire response must be in the language with ISO code: "
  ++ language env ++ String "010" (String "010" message).

(** [private readonly chat_]: lines 51-151.  The only statement that may
    throw out of it is the debug logging of [JSON.stringify(jsonSchema)]
    (line 68); the send is guarded by its own try/catch. *)
Definition chat_ (env : Env) (message : string)
    (jsonSchema : option JsonSchema) : Exc (string * Ids) :=
  if negb (truthy_str message) then Ok ("", ids_empty)
  else
    let message := prompt env message in
    let logged :=
      if debug env then
        match jsonSchema with
        | Some s => match json_stringify env (schema_doc s) with
                    | Ok _ => Ok tt
                    | Throw e => Throw e
                    end
        | None => Ok tt
        end
      else Ok tt in
    match logged with
    | Throw e => Throw e
    | Ok _ =>
        let response := response_of (send_outcome env message jsonSchema) in
        Ok (normalize env response, new_ids response)
    end.

(** [chat]: lines 37-49. *)
Definition chat (env : Env) (message : string)
    (jsonSchema : option JsonSchema) : string * Ids :=
  let res := ("", ids_empty) in
  match chat_ env message jsonSchema with
  | Ok r => r
  | Throw _ => res
  end.

End Bot.

(** ** [src/sopRetriever.ts] *)

Module Sop.

(** A Pinecone metadata value ([RecordMetadataValue]). *)
Inductive MetaVal : Type :=
| MStr (s : string)
| MNum (q : Q)
| MBool (b : bool)
| MList (xs : list string).

(** A metadata object; a key maps to its first binding. *)
Definition Metadata := list (string * MetaVal).

Fixpoint lookup_meta (k : string) (m : Metadata) : option MetaVal :=
  match m with
  | [] => None
  | (k', v) :: m' => if String.eqb k k' then Some v else lookup_meta k m'
  end.

(** [export interface SOP].  The cast [match.metadata?.text as string]
    is unchecked, so [text] holds whatever value was stored. *)
Record SOP := mkSOP {
  text : MetaVal;
  id : option string;
  score : option Q;
  metadata : option Metadata
}.

(** A Pinecone [ScoredPineconeRecord]. *)
Record Match := mkMatch {
  m_id : string;
  m_score : option Q;
  m_metadata : option Metadata
}.

Record QueryRequest := mkQuery {
  q_vector : list Q;
  q_topK : nat;
  q_includeMetadata : bool
}.

Record QueryResponse := mkQueryResponse {
  matches : option (list Match)
}.

(** Value returned by the feature-extraction pipeline, in the shapes the
    code distinguishes (lines 93-106). *)
Inductive EmbedOutput : Type :=
| OData (xs : list Q)        (* a Tensor: [.data] is a TypedArray *)
| OArray (xs : list Q)       (* already an array *)
| OToList (xs : list Q)      (* an object with a [tolist] method *)
| OOther                     (* any other non-null object *)
| ONull.                     (* [null] *)

(** Handles of the external objects ([embedder], [pineconeClient],
    [pineconeIndex]) are opaque identifiers. *)
Definition handle := nat.

(** External calls, recorded in the order they are made. *)
Inductive Event : Type :=
| EvPipeline
| EvNewPinecone (apiKey : string)
| EvIndex (indexName : string)
| EvEmbed (t : string)
| EvQuery (req : QueryRequest).

(** The module-level [let] variables, and the trace of external calls. *)
Record State := mkState {
  embedder : option handle;
  pineconeClient : option handle;
  pineconeIndex : option handle;
  trace : list Event
}.

(** Behaviour of the outside world: action inputs ([getInput], [''] when
    unset) and the outcome of each external call. *)
Record World := mkWorld {
  getInput : string -> string;
  pipeline : Exc handle;
  run_embedder : handle -> string -> Exc EmbedOutput;
  new_pinecone : string -> Exc handle;
  client_index : handle -> string -> Exc handle;
  index_query : handle -> QueryRequest -> Exc QueryResponse
}.

(** A state and exception monad over [State], reading the [World]. *)
Definition M (A : Type) := World -> State -> Exc A * State.

Definition ret {A} (a : A) : M A := fun _ s => (Ok a, s).
Definition throw {A} (e : err) : M A := fun _ s => (Throw e, s).
Definition bind {A B} (c : M A) (k : A -> M B) : M B :=
  fun w s => match c w s with
             | (Ok a, s') => k a w s'
             | (Throw e, s') => (Throw e, s')
             end.
(** [try { c } catch (e) { h(e) }] *)
Definition catch_ {A} (c : M A) (h : err -> M A) : M A :=
  fun w s => match c w s with
             | (Ok a, s') => (Ok a, s')
             | (Throw e, s') => h e w s'
             end.
Definition get : M State := fun _ s => (Ok s, s).
Definition modify (f : State -> State) : M unit := fun _ s => (Ok tt, f s).
Definition ask : M World := fun w s => (Ok w, s).
(** An external call: recorded, then its outcome is taken from the
    world. *)
Definition call {A} (ev : Event) (f : World -> Exc A) : M A :=
  fun w s => (f w, mkState (embedder s) (pineconeClient s) (pineconeIndex s)
                          (trace s ++ [ev])).

Notation "x <- c ;; k" := (bind c (fun x => k))
  (at level 61, c at next level, right associativity).
Notation "c ;;; k" := (bind c (fun _ => k))
  (at level 61, right associativity).

Definition set_embedder (e : option handle) (s : State) : State :=
  mkState e (pineconeClient s) (pineconeIndex s) (trace s).
Definition set_client (c : option handle) (s : State) : State :=
  mkState (embedder s) c (pineconeIndex s) (trace s).
Definition set_index (i : option handle) (s : State) : State :=
  mkState (embedder s) (pineconeClient s) i (trace s).

(** [initializeEmbedder]: lines 19-30; the failure is logged and
    rethrown. *)
Definition initializeEmbedder : M unit :=
  s <- get ;;
  match embedder s with
  | None =>
      catch_ (e <- call EvPipeline pipeline ;;
              modify (set_embedder (Some e)))
             (fun e => throw e)
  | Some _ => ret tt
  end.

(** [host.match(/^([^.]+)\.svc\./)], capture group 1: the non-empty
    run of non-dot characters at the start, when followed by [".svc."]. *)
Fixpoint host_prefix (acc : string) (h : string) : option string :=
  match h with
  | EmptyString => None
  | String c rest =>
      if Ascii.eqb c "." then
        if String.prefix "svc." rest && truthy_str acc then Some acc
        else None
      else host_prefix (acc ++ String c EmptyString) rest
  end.

Definition match_index_name (host : string) : option string :=
  host_prefix "" host.

(** [initializePinecone]: lines 35-73.  [pineconeClient] is assigned
    before [pineconeClient.index(...)] is called. *)
Definition initializePinecone : M unit :=
  s <- get ;;
  match pineconeClient s with
  | Some _ => ret tt
  | None =>
      w <- ask ;;
      let apiKey := getInput w "pinecone_api_key" in
      let host := getInput w "pinecone_host" in
      let indexName := getInput w "pinecone_index" in
      let indexName :=
        if negb (truthy_str indexName) && truthy_str host then
          match match_index_name host with
          | Some n => n
          | None => indexName
          end
        else indexName in
      let indexName :=
        if negb (truthy_str indexName) then "sop-embeddings" else indexName in
      if negb (truthy_str apiKey) then
        throw "PINECONE_API_KEY environment variable is not set"
      else
        catch_ (c <- call (EvNewPinecone apiKey)
                          (fun w => new_pinecone w apiKey) ;;
                modify (set_client (Some c)) ;;;
                i <- call (EvIndex indexName)
                          (fun w => client_index w c indexName) ;;
                modify (set_index (Some i)))
               (fun e => throw e)
  end.

(** Lines 92-106: conversion of the pipeline output to an array.  On a
    non-iterable object [Array.from] yields [[]]; on [null] reading
    [.data] throws a TypeError. *)
Definition vector_of (output : EmbedOutput) : Exc (list Q) :=
  match output with
  | OData xs => Ok xs
  | OArray xs => Ok xs
  | OToList xs => Ok xs
  | OOther => Ok []
  | ONull => Throw "Cannot read properties of null (reading 'data')"
  end.

(** [embedText]: lines 79-119 (the dimension check only logs). *)
Definition embedText (t : string) : M (list Q) :=
  catch_ (initializeEmbedder ;;;
          s <- get ;;
          match embedder s with
          | None => throw "Embedder not initialized"
          | Some e =>
              output <- call (EvEmbed t) (fun w => run_embedder w e t) ;;
              match vector_of output with
              | Ok v => ret v
              | Throw x => throw x
              end
          end)
         (fun e => throw e).

(** JS truthiness of a metadata value ([undefined] is [None]). *)
Definition truthy_meta (v : option MetaVal) : bool :=
  match v with
  | None => false
  | Some (MStr s) => truthy_str s
  | Some (MNum q) => negb (Qeq_bool q 0)
  | Some (MBool b) => b
  | Some (MList _) => true
  end.

(** Lines 153-161: a match as an SOP. *)
Definition sop_of_match (m : Match) : SOP :=
  let t := match m_metadata m with
           | Some md => lookup_meta "text" md
           | None => None
           end in
  mkSOP (match t with
         | Some v => if truthy_meta t then v else MStr ""
         | None => MStr ""
         end)
        (Some (m_id m)) (m_score m) (m_metadata m).

(** [getRelevantSops]: lines 125-173. *)
Definition getRelevantSops (diffChunk : string) : M (list SOP) :=
  catch_ (initializePinecone ;;;
          s <- get ;;
          match pineconeIndex s with
          | None => ret []
          | Some ix =>
              vector <- embedText diffChunk ;;
              let req := mkQuery vector 3 true in
              queryResponse <- call (EvQuery req)
                                    (fun w => index_query w ix req) ;;
              match matches queryResponse with
              | None => ret []
              | Some [] => ret []
              | Some ms => ret (map sop_of_match ms)
              end
          end)
         (fun _ => ret []).

(** *** [formatSopsForPrompt] *)

Definition nl : string := String "010" EmptyString.

Definition Z_to_string (n : Z) : string :=
  uint_to_string (N.to_uint (Z.to_N n)).

Fixpoint zeros (k : nat) : string :=
  match k with O => "" | S k => String "0" (zeros k) end.

Fixpoint join (sep : string) (l : list string) : string :=
  match l with
  | [] => ""
  | [x] => x
  | x :: l => x ++ sep ++ join sep l
  end.

Section Format.

(** [Number::toString] on finite numbers, used by [toFixed] at or above
    10^21 and by the template literal on numeric metadata. *)
Variable number_to_string : Q -> string.

(** [Number.prototype.toFixed(3)] (ECMA-262, 21.1.3.3) on a finite
    number, following the standard's steps. *)
Definition toFixed3 (x : Q) : string :=
  let neg := negb (Qle_bool 0 x) in
  let s := if neg then "-" else "" in
  let x := if neg then Qopp x else x in
  if Qle_bool (inject_Z (10 ^ 21)) x then s ++ number_to_string x
  else
    let n := Qfloor (x * inject_Z 1000 + (1 # 2)) in
    let m := if Z.eqb n 0 then "0" else Z_to_string n in
    let k := String.length m in
    let m := if Nat.leb k 3 then zeros (4 - k) ++ m else m in
    let k := String.length m in
    s ++ substring 0 (k - 3) m ++ "." ++ substring (k - 3) 3 m.

(** [`${v}`] of a metadata value. *)
Definition meta_to_string (v : MetaVal) : string :=
  match v with
  | MStr s => s
  | MNum q => number_to_string q
  | MBool b => if b then "true" else "false"
  | MList xs => join "," xs
  end.

(** Line 185-187: the entry of the SOP at [index]. *)
Definition sop_entry (index : nat) (sop : SOP) : string :=
  "### Relevant SOP " ++ nat_to_string (index + 1)
  ++ (match id sop with
      | Some i => if truthy_str i then " (ID: " ++ i ++ ")" else ""
      | None => ""
      end)
  ++ (match score sop with
      | Some x => " (relevance: " ++ toFixed3 x ++ ")"
      | None => ""
      end)
  ++ nl ++ nl ++ meta_to_string (text sop).

(** [sops.map((sop, index) => ...)] *)
Fixpoint map_entries (index : nat) (sops : list SOP) : list string :=
  match sops with
  | [] => []
  | sop :: sops => sop_entry index sop :: map_entries (S index) sops
  end.

(** [formatSopsForPrompt]: lines 178-196. *)
Definition formatSopsForPrompt (sops : list SOP) : string :=
  if Nat.eqb (length sops) 0 then ""
  else
    let sopTexts := join (nl ++ nl) (map_entries 0 sops) in
    nl ++ "<relevant_sops>" ++ nl ++ sopTexts ++ nl ++ "</relevant_sops>" ++ nl.

End Format.

End Sop.

(** * Auxiliary definitions for the statements *)

Module Aux.
Import Sop.

(** The state after one more recorded external call. *)
Definition add_event (s : State) (ev : Event) : State :=
  mkState (embedder s) (pineconeClient s) (pineconeIndex s)
          (trace s ++ [ev])%list.

Definition is_digit (c : ascii) : bool :=
  (48 <=? nat_of_ascii c)%nat && (nat_of_ascii c <=? 57)%nat.

Fixpoint all_digits (s : string) : bool :=
  match s with
  | EmptyString => true
  | String c s => is_digit c && all_digits s
  end.

(** The text [x.xxx]: an optional minus sign, at least one digit, a
    point and exactly three digits. *)
Definition fixed3_shape (r : string) : Prop :=
  exists sign a b,
    (sign = "" \/ sign = "-") /\ a <> "" /\ all_digits a = true /\
    String.length b = 3%nat /\ all_digits b = true /\
    r = sign ++ a ++ "." ++ b.

(** The text fragments of a response content, in order. *)
Fixpoint texts_of (c : list Bot.ContentBlock) : list string :=
  match c with
  | [] => []
  | Bot.CText t :: c => t :: texts_of c
  | _ :: c => texts_of c
  end.

(** A content with no tool-call item. *)
Definition no_tool (c : list Bot.ContentBlock) : bool :=
  forallb (fun b => match b with Bot.CToolUse _ => false | _ => true end) c.

(** A string with no ['.'] character. *)
Fixpoint no_dot (s : string) : bool :=
  match s with
  | EmptyString => true
  | String c s => negb (Ascii.eqb c ".") && no_dot s
  end.

(** The index name in the resolution order of the spec: the explicit
    [pinecone_index] input, else the segment of [pinecone_host] before
    [.svc.], else ["sop-embeddings"]. *)
Definition resolved_index_name (w : World) : string :=
  let explicit := getInput w "pinecone_index" in
  if truthy_str explicit then explicit
  else match match_index_name (getInput w "pinecone_host") with
       | Some n => n
       | None => "sop-embeddings"
       end.

(** An attempt that [pRetry] records and retries: an ordinary [Error] or
    a network [TypeError]. *)
Definition retried {A} (o : Bot.Attempt A) (m : string) : Prop :=
  o = Bot.Failed (Bot.FError m) \/ o = Bot.Failed (Bot.FTypeError m true).

End Aux.

(** * Concrete environments used by the witnesses *)

Module Samples.
Import Bot.

Definition dq : string := String "034" EmptyString.

(** The tool payload [{"a":1}] and its serialization. *)
Definition payload : Doc := DObj [("a", DNum 1)].
Definition payload_json : string := "{" ++ dq ++ "a" ++ dq ++ ":1}".

(** A [JSON.stringify] that is exact on the documents used below and
    throws on BigInt as the real one does. *)
Definition sample_stringify (d : Doc) : Exc string :=
  match d with
  | DBigInt _ => Throw "Do not know how to serialize a BigInt"
  | DNull => Ok "null"
  | _ => Ok payload_json
  end.

(** Bedrock unavailable on every attempt. *)
Definition env_down : Env :=
  mkEnv "en" false 2 "model"
        (fun _ _ => Failed (FError "ServiceUnavailable"))
        sample_stringify.

(** Bedrock failing on the first attempt and answering on the second. *)
Definition env_flaky (r : Response) : Env :=
  mkEnv "en" false 2 "model"
        (fun _ k => if Nat.eqb k 0 then Failed (FError "ThrottlingException")
                    else Done r)
        sample_stringify.

(** Bedrock answering [r] at once, with debug logging on. *)
Definition env_up (r : Response) : Env :=
  mkEnv "en" true 2 "model" (fun _ _ => Done r) sample_stringify.

(** Throttled twice, then unavailable: every attempt fails. *)
Definition throttle_messages (k : nat) : string :=
  if Nat.eqb k 2 then "ServiceUnavailable" else "ThrottlingException".

Definition env_throttled : Env :=
  mkEnv "en" false 2 "model"
        (fun _ k => Failed (FError (throttle_messages k)))
        sample_stringify.

(** Throttled once, then a programming error ([TypeError]) in the SDK;
    the third attempt would answer [r]. *)
Definition env_type_error (r : Response) : Env :=
  mkEnv "en" false 2 "model"
        (fun _ k => match k with
                    | O => Failed (FError "ThrottlingException")
                    | S O => Failed (FTypeError "x is not a function" false)
                    | _ => Done r
                    end)
        sample_stringify.

Definition sample_schema : JsonSchema :=
  mkJsonSchema "review" "Review comments" [("type", DStr "object")].

Definition message_of (c : list ContentBlock) : Message :=
  mkMessage (Some c).

Definition response_of_content (c : list ContentBlock) : Response :=
  mkResponse (Some (message_of c)) (mkMeta (Some "req-1") (Some "cf-1")).

Import Sop.

Definition sample_match (n : nat) : Match :=
  mkMatch ("sop-" ++ nat_to_string n) (Some (1 # Pos.of_nat (S n)))
          (Some [("text", MStr ("Procedure " ++ nat_to_string n))]).

Definition five_matches : list Match := map sample_match [1; 2; 3; 4; 5]%nat.

(** An index seeded with [ms] that honours [topK]. *)
Definition world_seeded (ms : list Match) : World :=
  mkWorld (fun k => if String.eqb k "pinecone_api_key" then "pk-test" else "")
          (Ok 1%nat) (fun _ _ => Ok (OData [1 # 2; 1 # 2]))
          (fun _ => Ok 2%nat) (fun _ _ => Ok 3%nat)
          (fun _ req => Ok (mkQueryResponse (Some (firstn (q_topK req) ms)))).

(** No API key configured. *)
Definition world_no_key : World :=
  mkWorld (fun _ => "") (Ok 1%nat) (fun _ _ => Ok (OArray []))
          (fun _ => Ok 2%nat) (fun _ _ => Ok 3%nat)
          (fun _ _ => Ok (mkQueryResponse None)).

(** [pineconeClient.index(...)] throws. *)
Definition world_index_fails : World :=
  mkWorld (fun k => if String.eqb k "pinecone_api_key" then "pk-test" else "")
          (Ok 1%nat) (fun _ _ => Ok (OArray []))
          (fun _ => Ok 2%nat) (fun _ _ => Throw "Index not found")
          (fun _ _ => Ok (mkQueryResponse None)).

(** The model download fails. *)
Definition world_model_fails : World :=
  mkWorld (fun _ => "") (Throw "fetch failed") (fun _ _ => Ok (OArray []))
          (fun _ => Ok 2%nat) (fun _ _ => Ok 3%nat)
          (fun _ _ => Ok (mkQueryResponse None)).

(** Index name given by the host only. *)
Definition world_host : World :=
  mkWorld (fun k => if String.eqb k "pinecone_api_key" then "pk-test"
                    else if String.eqb k "pinecone_host"
                    then "sop-embeddings-2vib48a.svc.aped-4627-b74a.pinecone.io"
                    else "")
          (Ok 1%nat) (fun _ _ => Ok (OArray []))
          (fun _ => Ok 2%nat) (fun _ _ => Ok 3%nat)
          (fun _ _ => Ok (mkQueryResponse None)).

(** Everything initialized. *)
Definition state_warm : State := mkState (Some 1%nat) (Some 2%nat) (Some 3%nat) [].

Definition state0 : State := mkState None None None [].

End Samples.

(** * Properties of [Bot.chat] *)

Module BotSpec.
Import Bot.

Lemma append_empty_r (s : string) : s ++ "" = s.
Proof. induction s as [|c s IH]; simpl; [reflexivity | now rewrite IH]. Qed.

Lemma append_assoc_str (a b c : string) : (a ++ b) ++ c = a ++ (b ++ c).
Proof. induction a as [|x a IH]; simpl; [reflexivity | now rewrite IH]. Qed.

(** A text item appends its fragment (an empty fragment is skipped, which
    appends nothing either). *)
Lemma step_text (env : Env) (acc t : string) :
  step env acc (CText t) = acc ++ t.
Proof.
  destruct t as [|c t]; simpl; [now rewrite append_empty_r | reflexivity].
Qed.

Lemma fold_text (env : Env) (ts : list string) (acc : string) :
  fold_left (step env) (map CText ts) acc = acc ++ String.concat "" ts.
Proof.
  revert acc; induction ts as [|t ts IH]; intro acc; cbn [fold_left map].
  - now rewrite append_empty_r.
  - rewrite IH, step_text, append_assoc_str. f_equal.
    destruct ts; simpl; [now rewrite append_empty_r | reflexivity].
Qed.

(** C1: whenever a step of [chat_] throws, or the send exhausts its
    retries, [chat] returns empty text and no identifiers. *)
Theorem chat_failure_empty (env : Env) (message : string)
    (jsonSchema : option JsonSchema) (e : err) :
  chat_ env message jsonSchema = Throw e \/
  send_outcome env (prompt env message) jsonSchema = Throw e ->
  chat env message jsonSchema = ("", ids_empty).
Proof.
  unfold chat. intros [H | H].
  - now rewrite H.
  - unfold chat_. destruct (negb (truthy_str message)); [reflexivity|].
    destruct (debug env); [destruct jsonSchema as [s|]|];
      try destruct (json_stringify env (schema_doc s)); simpl;
      rewrite ?H; reflexivity.
Qed.

(** C3: a tool-call item following a text item replaces the accumulated
    text by the tool-call's serialized input. *)
Theorem normalize_text_then_tool (env : Env) (r : Response) (m : Message)
    (pre : list ContentBlock) (t : string) (input : Doc) (s : string) :
  output_message r = Some m ->
  content m = Some (pre ++ [CText t; CToolUse input])%list ->
  json_stringify env input = Ok s ->
  normalize env (Some r) = s.
Proof.
  intros Hm Hc Hs. unfold normalize. rewrite Hm, Hc, fold_left_app.
  simpl. now rewrite Hs.
Qed.

(** C6: a content made only of text items normalises to the in-order
    concatenation of the fragments. *)
Theorem normalize_only_text (env : Env) (r : Response) (m : Message)
    (ts : list string) :
  output_message r = Some m ->
  content m = Some (map CText ts) ->
  normalize env (Some r) = String.concat "" ts.
Proof.
  intros Hm Hc. unfold normalize. rewrite Hm, Hc. apply fold_text.
Qed.

(** C7: a tool-call payload whose serialization throws sets the
    accumulator to the empty string; the step returns normally. *)
Theorem step_tool_stringify_fails (env : Env) (acc : string) (input : Doc)
    (e : err) :
  json_stringify env input = Throw e ->
  step env acc (CToolUse input) = "".
Proof. intro H. simpl. now rewrite H. Qed.

(** C10: a text item after the last tool-call item is appended to the
    tool-call's serialized payload. *)
Theorem normalize_tool_then_text (env : Env) (r : Response) (m : Message)
    (pre : list ContentBlock) (input : Doc) (s t : string) :
  output_message r = Some m ->
  content m = Some (pre ++ [CToolUse input; CText t])%list ->
  json_stringify env input = Ok s ->
  normalize env (Some r) = s ++ t.
Proof.
  intros Hm Hc Hs. unfold normalize. rewrite Hm, Hc, fold_left_app.
  simpl. rewrite Hs.
  destruct t; simpl; [now rewrite append_empty_r | reflexivity].
Qed.

End BotSpec.

(** * Properties of the SOP retriever *)

Module SopSpec.
Import Sop Aux.

(** [getRelevantSops] unfolded into its steps. *)
Lemma getRelevantSops_steps (d : string) (w : World) (s : State) :
  getRelevantSops d w s =
  match initializePinecone w s with
  | (Throw _, s1) => (Ok [], s1)
  | (Ok _, s1) =>
      match pineconeIndex s1 with
      | None => (Ok [], s1)
      | Some ix =>
          match embedText d w s1 with
          | (Throw _, s2) => (Ok [], s2)
          | (Ok v, s2) =>
              let req := mkQuery v 3 true in
              match index_query w ix req with
              | Throw _ => (Ok [], add_event s2 (EvQuery req))
              | Ok qr =>
                  (Ok match matches qr with
                      | None => []
                      | Some [] => []
                      | Some ms => map sop_of_match ms
                      end, add_event s2 (EvQuery req))
              end
          end
      end
  end.
Proof.
  unfold getRelevantSops, catch_, bind, get, ret, call, add_event.
  destruct (initializePinecone w s) as [[u|e] s1]; [|reflexivity].
  destruct (pineconeIndex s1) as [ix|]; [|reflexivity].
  destruct (embedText d w s1) as [[v|e] s2]; [|reflexivity].
  destruct (index_query w ix (mkQuery v 3 true)) as [qr|e]; [|reflexivity].
  destruct (matches qr) as [[|m ms]|]; reflexivity.
Qed.

(** C2: a failure of initialization, of the embedding or of the index
    query, and an index handle that never became available, all make
    [getRelevantSops] return [[]] normally. *)
Theorem getRelevantSops_failures_empty (d : string) (w : World) (s : State) :
  (exists e s1, initializePinecone w s = (Throw e, s1)) \/
  (exists u s1, initializePinecone w s = (Ok u, s1) /\
                pineconeIndex s1 = None) \/
  (exists u s1 ix e s2, initializePinecone w s = (Ok u, s1) /\
                pineconeIndex s1 = Some ix /\
                embedText d w s1 = (Throw e, s2)) \/
  (exists u s1 ix v s2 e, initializePinecone w s = (Ok u, s1) /\
                pineconeIndex s1 = Some ix /\
                embedText d w s1 = (Ok v, s2) /\
                index_query w ix (mkQuery v 3 true) = Throw e) ->
  fst (getRelevantSops d w s) = Ok [].
Proof.
  rewrite getRelevantSops_steps.
  intros [(e & s1 & H) | [(u & s1 & H & Hi) | [(u & s1 & ix & e & s2 & H & Hi & He)
          | (u & s1 & ix & v & s2 & e & H & Hi & He & Hq)]]];
    rewrite H; try rewrite Hi; try rewrite He; cbv zeta;
    try rewrite Hq; reflexivity.
Qed.

(** C4: when the index honours [topK], at most 3 SOPs are returned, each
    the image of a match of the index's answer to the top-3 query. *)
Theorem getRelevantSops_at_most_three (d : string) (w : World) (s : State) :
  (forall ix req qr ms, index_query w ix req = Ok qr ->
     matches qr = Some ms -> (length ms <= q_topK req)%nat) ->
  exists sops, fst (getRelevantSops d w s) = Ok sops /\
    (length sops <= 3)%nat /\
    (sops = [] \/
     exists ix v qr ms, index_query w ix (mkQuery v 3 true) = Ok qr /\
       matches qr = Some ms /\ sops = map sop_of_match ms).
Proof.
  intro Htop. rewrite getRelevantSops_steps.
  destruct (initializePinecone w s) as [[u|e] s1];
    [|exists []; simpl; auto with arith].
  destruct (pineconeIndex s1) as [ix|]; [|exists []; simpl; auto with arith].
  destruct (embedText d w s1) as [[v|e] s2];
    [|exists []; simpl; auto with arith].
  cbv zeta.
  destruct (index_query w ix (mkQuery v 3 true)) as [qr|e] eqn:Hq;
    [|exists []; simpl; auto with arith].
  destruct (matches qr) as [ms|] eqn:Hm; [|exists []; simpl; auto with arith].
  pose proof (Htop _ _ _ _ Hq Hm) as Hlen. simpl in Hlen.
  destruct ms as [|m ms']; [exists []; simpl; auto with arith|].
  exists (map sop_of_match (m :: ms')). simpl fst. split; [reflexivity|].
  split.
  - rewrite length_map. exact Hlen.
  - right. exists ix, v, qr, (m :: ms'). auto.
Qed.

(** C5: without an API key, initializing the client throws at once and
    leaves the state, including the trace of external calls, unchanged. *)
Theorem initializePinecone_missing_key (w : World) (s : State) :
  pineconeClient s = None ->
  getInput w "pinecone_api_key" = "" ->
  initializePinecone w s =
    (Throw "PINECONE_API_KEY environment variable is not set", s).
Proof.
  intros Hc Hk. unfold initializePinecone, bind, get, ask.
  rewrite Hc, Hk. reflexivity.
Qed.

(** C8: a failed construction of the encoder is rethrown, leaves
    [embedder] null, and the next call starts again from construction. *)
Theorem embedText_construction_failure (w w' : World) (s : State)
    (t t' : string) (e : err) :
  embedder s = None ->
  pipeline w = Throw e ->
  let s1 := mkState None (pineconeClient s) (pineconeIndex s)
                    (trace s ++ [EvPipeline])%list in
  embedText t w s = (Throw e, s1) /\
  embedder s1 = None /\
  fst (embedText t' w' s1) = fst (embedText t' w' s) /\
  exists rest, trace (snd (embedText t' w' s1)) =
               (trace s1 ++ EvPipeline :: rest)%list.
Proof.
  destruct s as [emb cl ix tr]; simpl. intros -> Hp.
  unfold embedText, initializeEmbedder, catch_, bind, get, ret, throw,
    call, modify, set_embedder; simpl.
  rewrite Hp. split; [reflexivity|]. split; [reflexivity|].
  destruct (pipeline w') as [h|x]; simpl.
  - destruct (run_embedder w' h t') as [o|x]; simpl.
    + destruct (vector_of o); simpl; split; try reflexivity;
        exists [EvEmbed t']; rewrite <- !app_assoc; reflexivity.
    + split; [reflexivity|].
      exists [EvEmbed t']; rewrite <- !app_assoc; reflexivity.
  - split; [reflexivity|]. exists []; reflexivity.
Qed.

End SopSpec.

(** * Properties of [formatSopsForPrompt] *)

Module FormatSpec.
Import Sop Aux.

Lemma str_length_app (a b : string) :
  String.length (a ++ b) = (String.length a + String.length b)%nat.
Proof. induction a as [|c a IH]; simpl; congruence. Qed.

Lemma all_digits_app (a b : string) :
  all_digits (a ++ b) = all_digits a && all_digits b.
Proof.
  induction a as [|c a IH]; simpl; [reflexivity|].
  now rewrite IH, andb_assoc.
Qed.

Lemma all_digits_uint (u : Decimal.uint) : all_digits (uint_to_string u) = true.
Proof. induction u; simpl; rewrite ?IHu; reflexivity. Qed.

Lemma all_digits_zeros (k : nat) : all_digits (zeros k) = true.
Proof. induction k; simpl; rewrite ?IHk; reflexivity. Qed.

Lemma length_zeros (k : nat) : String.length (zeros k) = k.
Proof. induction k; simpl; congruence. Qed.

Lemma all_digits_substring (n m : nat) (s : string) :
  all_digits s = true -> all_digits (substring n m s) = true.
Proof.
  revert n m; induction s as [|c s IH]; intros n m H.
  - destruct n, m; reflexivity.
  - cbn [all_digits] in H. apply andb_prop in H as [H1 H2].
    destruct n as [|n], m as [|m]; cbn [substring all_digits];
      try reflexivity; try (apply IH; exact H2).
    rewrite H1, IH by exact H2. reflexivity.
Qed.

Lemma length_substring (n m : nat) (s : string) :
  (n + m <= String.length s)%nat -> String.length (substring n m s) = m.
Proof.
  revert n m; induction s as [|c s IH]; intros n m H.
  - simpl in H. destruct n, m; simpl in *; try reflexivity; lia.
  - simpl in H. destruct n as [|n], m as [|m]; cbn [substring String.length];
      try reflexivity.
    + f_equal. apply IH. lia.
    + apply IH. lia.
    + apply IH. lia.
Qed.

Lemma substring_full (s : string) : substring 0 (String.length s) s = s.
Proof. induction s as [|c s IH]; simpl; congruence. Qed.

Lemma substring_split (s : string) (j : nat) :
  (j <= String.length s)%nat ->
  substring 0 j s ++ substring j (String.length s - j) s = s.
Proof.
  revert j; induction s as [|c s IH]; intros j H.
  - simpl in H. destruct j; [reflexivity | lia].
  - destruct j as [|j].
    + simpl. f_equal. apply substring_full.
    + simpl in H |- *. f_equal. apply IH. lia.
Qed.

(** Splitting a digit string of length at least 4 before its last three
    digits gives the [x.xxx] shape. *)
Lemma point3_shape (sign m : string) :
  (sign = "" \/ sign = "-") -> all_digits m = true ->
  (4 <= String.length m)%nat ->
  fixed3_shape (sign ++ substring 0 (String.length m - 3) m ++ "."
                     ++ substring (String.length m - 3) 3 m).
Proof.
  intros Hs Hd Hl.
  exists sign, (substring 0 (String.length m - 3) m),
         (substring (String.length m - 3) 3 m).
  split; [exact Hs|]. split.
  { intro Ha.
    assert (Hlen : String.length (substring 0 (String.length m - 3) m)
                   = (String.length m - 3)%nat)
      by (apply length_substring; lia).
    rewrite Ha in Hlen. simpl in Hlen. lia. }
  split; [apply all_digits_substring; exact Hd|].
  split; [apply length_substring; lia|].
  split; [apply all_digits_substring; exact Hd|].
  reflexivity.
Qed.

(** [toFixed(3)] of a finite number below 10^21 in magnitude has the
    shape [x.xxx]. *)
Lemma toFixed3_shape (nts : Q -> string) (x : Q) :
  Qabs x < inject_Z (10 ^ 21) -> fixed3_shape (toFixed3 nts x).
Proof.
  intro Hx. unfold toFixed3. cbv zeta.
  assert (Hb : Qle_bool (inject_Z (10 ^ 21))
                 (if negb (Qle_bool 0 x) then - x else x) = false).
  { destruct (Qle_bool (inject_Z (10 ^ 21)) _) eqn:E; [|reflexivity].
    exfalso. apply Qle_bool_iff in E.
    assert (Ha : (if negb (Qle_bool 0 x) then - x else x) <= Qabs x).
    { destruct (negb (Qle_bool 0 x)).
      - rewrite <- Qabs_opp. apply Qle_Qabs.
      - apply Qle_Qabs. }
    apply (Qlt_not_le _ _ Hx). eapply Qle_trans; eassumption. }
  rewrite Hb.
  assert (Hs : (if negb (Qle_bool 0 x) then "-" else "") = ""
               \/ (if negb (Qle_bool 0 x) then "-" else "") = "-")
    by (destruct (negb (Qle_bool 0 x)); auto).
  revert Hs. generalize (if negb (Qle_bool 0 x) then "-" else "").
  intros sign Hs.
  match goal with |- context [Qfloor ?e] => generalize (Qfloor e) end.
  intro n.
  assert (Hm : all_digits (if Z.eqb n 0 then "0" else Z_to_string n) = true)
    by (destruct (Z.eqb n 0); [reflexivity | apply all_digits_uint]).
  revert Hm. generalize (if Z.eqb n 0 then "0" else Z_to_string n).
  intros m Hm.
  destruct (Nat.leb_spec (String.length m) 3).
  - apply point3_shape; [exact Hs| |].
    + rewrite all_digits_app, all_digits_zeros, Hm. reflexivity.
    + rewrite str_length_app, length_zeros. lia.
  - apply point3_shape; [exact Hs | exact Hm | lia].
Qed.

Lemma length_map_entries (nts : Q -> string) (k : nat) (sops : list SOP) :
  length (map_entries nts k sops) = length sops.
Proof.
  revert k; induction sops as [|sop sops IH]; intro k; simpl; congruence.
Qed.

Lemma nth_map_entries (nts : Q -> string) (k : nat) (sops : list SOP)
    (i : nat) :
  nth_error (map_entries nts k sops) i
  = option_map (sop_entry nts (k + i)) (nth_error sops i).
Proof.
  revert k i; induction sops as [|sop sops IH]; intros k i.
  - destruct i; reflexivity.
  - destruct i as [|i]; simpl.
    + now rewrite Nat.add_0_r.
    + rewrite IH. now replace (S k + i)%nat with (k + S i)%nat by lia.
Qed.

(** C9 fails as stated: an SOP whose id is the empty string has an id but
    gets no [(ID: ...)] suffix (the code tests [sop.id] for truthiness),
    and [toFixed(3)] of a score of 10^21 is [Number::toString], i.e.
    ["1e+21"], not three decimals. *)
Lemma formatSopsForPrompt_counterexample :
  let sop := mkSOP (MStr "Check inputs") (Some "") None None in
  id sop = Some "" /\
  formatSopsForPrompt (fun _ => "") [sop] =
    nl ++ "<relevant_sops>" ++ nl ++ "### Relevant SOP 1" ++ nl ++ nl
       ++ "Check inputs" ++ nl ++ "</relevant_sops>" ++ nl /\
  String.index 0 "(ID:" (formatSopsForPrompt (fun _ => "") [sop]) = None /\
  toFixed3 (fun _ => "1e+21") (inject_Z (10 ^ 21)) = "1e+21".
Proof.
  cbv zeta. split; [reflexivity|]. split; [vm_compute; reflexivity|].
  split; vm_compute; reflexivity.
Qed.

(** C9 (amended): [formatSopsForPrompt []] is empty; on a non-empty list
    of n SOPs the output is the [<relevant_sops>] tag line, n entries
    joined by a blank line, and the [</relevant_sops>] tag line.  Entry
    i (from 0) is the heading [### Relevant SOP (i+1)], a [(ID: x)]
    suffix exactly when the id is a non-empty string x, a
    [(relevance: r)] suffix exactly when there is a score x, where r is
    [x.toFixed(3)] ([toFixed3]) and has the [x.xxx] shape when the score
    is below 10^21 in magnitude, then a blank line and the SOP's text. *)
Theorem formatSopsForPrompt_shape (nts : Q -> string) :
  formatSopsForPrompt nts [] = "" /\
  forall sops, sops <> [] ->
  exists entries,
    length entries = length sops /\
    formatSopsForPrompt nts sops =
      nl ++ "<relevant_sops>" ++ nl ++ join (nl ++ nl) entries
         ++ nl ++ "</relevant_sops>" ++ nl /\
    forall i sop, nth_error sops i = Some sop ->
      exists idpart scorepart,
        nth_error entries i =
          Some ("### Relevant SOP " ++ nat_to_string (S i) ++ idpart
                ++ scorepart ++ nl ++ nl ++ meta_to_string nts (text sop)) /\
        ((exists x, id sop = Some x /\ x <> "" /\
                    idpart = " (ID: " ++ x ++ ")") \/
         ((id sop = None \/ id sop = Some "") /\ idpart = "")) /\
        ((score sop = None /\ scorepart = "") \/
         (exists x, score sop = Some x /\
                    scorepart = " (relevance: " ++ toFixed3 nts x ++ ")" /\
                    (Qabs x < inject_Z (10 ^ 21) ->
                     fixed3_shape (toFixed3 nts x)))).
Proof.
  split; [reflexivity|].
  intros sops Hne. exists (map_entries nts 0 sops).
  split; [apply length_map_entries|]. split.
  { destruct sops; [contradiction | reflexivity]. }
  intros i sop Hi. rewrite nth_map_entries, Hi. cbn [option_map].
  exists (match id sop with
          | Some x => if truthy_str x then " (ID: " ++ x ++ ")" else ""
          | None => ""
          end),
         (match score sop with
          | Some x => " (relevance: " ++ toFixed3 nts x ++ ")"
          | None => ""
          end).
  split.
  { unfold sop_entry. simpl (0 + i)%nat. rewrite Nat.add_1_r. reflexivity. }
  split.
  - destruct (id sop) as [[|c x]|].
    + right. split; [right; reflexivity | reflexivity].
    + left. exists (String c x). split; [reflexivity|].
      split; [discriminate | reflexivity].
    + right. split; [left; reflexivity | reflexivity].
  - destruct (score sop) as [x|].
    + right. exists x. split; [reflexivity|].
      split; [reflexivity|]. apply toFixed3_shape.
    + left. split; reflexivity.
Qed.

End FormatSpec.

(** * Further properties of [src/bot.ts] *)

Module BotExtra.
Import Bot Aux.

Lemma concat_empty_cons (t : string) (ts : list string) :
  String.concat "" (t :: ts) = t ++ String.concat "" ts.
Proof.
  destruct ts; simpl; [now rewrite BotSpec.append_empty_r | reflexivity].
Qed.

Lemma fold_no_tool (env : Env) (c : list ContentBlock) (acc : string) :
  no_tool c = true ->
  fold_left (step env) c acc = acc ++ String.concat "" (texts_of c).
Proof.
  revert acc; induction c as [|b c IH]; intros acc H.
  - simpl. now rewrite BotSpec.append_empty_r.
  - destruct b as [t|input|]; simpl in H; cbn [fold_left texts_of];
      try discriminate.
    + rewrite IH by exact H. rewrite concat_empty_cons.
      destruct t as [|ch t]; simpl; [reflexivity|].
      rewrite BotSpec.append_assoc_str. reflexivity.
    + apply IH. exact H.
Qed.

Lemma p_retry_loop_retried {A} (input : nat -> Attempt A) i r errs m :
  retried (input i) m ->
  p_retry_loop input i (S r) errs = p_retry_loop input (S i) r (errs ++ [m])%list.
Proof.
  intros [H|H]; simpl; rewrite H; reflexivity.
Qed.

Lemma p_retry_loop_first_success {A} (input : nat -> Attempt A) (r : nat) :
  forall i j errs a,
  (j <= r)%nat ->
  (forall k, (k < j)%nat -> exists m, retried (input (i + k)%nat) m) ->
  input (i + j)%nat = Done a ->
  p_retry_loop input i r errs = Ok a.
Proof.
  induction r as [|r IH]; intros i j errs a Hj Hbefore Hok.
  - assert (j = 0%nat) by lia. subst j. rewrite Nat.add_0_r in Hok.
    simpl. now rewrite Hok.
  - destruct j as [|j].
    + rewrite Nat.add_0_r in Hok. simpl. now rewrite Hok.
    + destruct (Hbefore 0%nat ltac:(lia)) as [m Hm].
      rewrite Nat.add_0_r in Hm. rewrite (p_retry_loop_retried _ _ _ _ _ Hm).
      apply (IH (S i) j _ a); [lia | |].
      * intros k Hk. destruct (Hbefore (S k) ltac:(lia)) as [m' Hm'].
        exists m'. now replace (S i + k)%nat with (i + S k)%nat by lia.
      * now replace (S i + j)%nat with (i + S j)%nat by lia.
Qed.

Lemma p_retry_loop_stop {A} (input : nat -> Attempt A) (r : nat) :
  forall i j errs m,
  (j <= r)%nat ->
  (forall k, (k < j)%nat -> exists m', retried (input (i + k)%nat) m') ->
  (input (i + j)%nat = Failed (FTypeError m false) \/
   input (i + j)%nat = Failed (FAbort m) \/
   exists v, input (i + j)%nat = Failed (FNonError v) /\
             m = non_error_message v) ->
  p_retry_loop input i r errs = Throw m.
Proof.
  induction r as [|r IH]; intros i j errs m Hj Hbefore Hstop.
  - assert (j = 0%nat) by lia. subst j. rewrite Nat.add_0_r in Hstop.
    simpl. destruct Hstop as [H|[H|[v [H ->]]]]; now rewrite H.
  - destruct j as [|j].
    + rewrite Nat.add_0_r in Hstop. simpl.
      destruct Hstop as [H|[H|[v [H ->]]]]; now rewrite H.
    + destruct (Hbefore 0%nat ltac:(lia)) as [m0 Hm0].
      rewrite Nat.add_0_r in Hm0. rewrite (p_retry_loop_retried _ _ _ _ _ Hm0).
      apply (IH (S i) j _ m); [lia | |].
      * intros k Hk. destruct (Hbefore (S k) ltac:(lia)) as [m' Hm'].
        exists m'. now replace (S i + k)%nat with (i + S k)%nat by lia.
      * now replace (S i + j)%nat with (i + S j)%nat by lia.
Qed.

Lemma p_retry_loop_all_fail {A} (input : nat -> Attempt A) (msg : nat -> string)
    (r : nat) :
  forall i errs,
  (forall k, (k <= r)%nat -> retried (input (i + k)%nat) (msg (i + k)%nat)) ->
  p_retry_loop input i r errs =
    match mainError (errs ++ map msg (seq i (S r)))%list with
    | Some e => Throw e
    | None => Throw (msg (i + r)%nat)
    end.
Proof.
  induction r as [|r IH]; intros i errs H.
  - specialize (H 0%nat (le_n 0)). rewrite Nat.add_0_r in H |- *.
    destruct H as [H|H]; simpl; rewrite H; reflexivity.
  - pose proof (H 0%nat ltac:(lia)) as H0. rewrite Nat.add_0_r in H0.
    rewrite (p_retry_loop_retried _ _ _ _ _ H0).
    rewrite IH.
    + replace (S i + r)%nat with (i + S r)%nat by lia.
      rewrite <- app_assoc. reflexivity.
    + intros k Hk. replace (S i + k)%nat with (i + S k)%nat by lia.
      apply H. lia.
Qed.

Lemma count_occ_snoc (l : list string) (x y : string) :
  count_occ string_dec (l ++ [x])%list y =
    (count_occ string_dec l y + if string_dec x y then 1 else 0)%nat.
Proof.
  rewrite count_occ_app. simpl. destruct (string_dec x y); reflexivity.
Qed.

(** The invariant of the loop of [mainError]: the candidate is a visited
    message of maximal count. *)
Lemma mainError_loop_spec (errors : list string) :
  forall seen main mc z,
  (forall y, (count_occ string_dec seen y <= mc)%nat) ->
  match main with
  | Some x => In x seen /\ count_occ string_dec seen x = mc
  | None => mc = 0%nat
  end ->
  mainError_loop seen errors main mc = Some z ->
  In z (seen ++ errors)%list /\
  forall y, (count_occ string_dec (seen ++ errors) y
             <= count_occ string_dec (seen ++ errors) z)%nat.
Proof.
  induction errors as [|e rest IH]; intros seen main mc z Hmax Hmain Hz.
  - simpl in Hz. subst main. destruct Hmain as [Hin Hc].
    rewrite app_nil_r. split; [exact Hin|]. intro y. rewrite Hc. apply Hmax.
  - replace (seen ++ e :: rest)%list with ((seen ++ [e]) ++ rest)%list
      by (rewrite <- app_assoc; reflexivity).
    simpl in Hz. destruct (Nat.leb mc (S (count_occ string_dec seen e))) eqn:Hle.
    + apply Nat.leb_le in Hle.
      eapply IH; [| |exact Hz].
      * intro y. rewrite count_occ_snoc.
        destruct (string_dec e y) as [<-|Hne]; [lia|].
        specialize (Hmax y). lia.
      * split; [apply in_or_app; right; left; reflexivity|].
        rewrite count_occ_snoc. destruct (string_dec e e); [lia|congruence].
    + apply Nat.leb_gt in Hle.
      destruct main as [x|]; [|lia].
      destruct Hmain as [Hin Hc].
      eapply IH; [| |exact Hz].
      * intro y. rewrite count_occ_snoc.
        destruct (string_dec e y) as [<-|Hne]; [lia|].
        specialize (Hmax y). lia.
      * split; [apply in_or_app; left; exact Hin|].
        rewrite count_occ_snoc. destruct (string_dec e x) as [->|]; lia.
Qed.

Lemma mainError_loop_some (errors : list string) :
  forall seen x mc, exists z, mainError_loop seen errors (Some x) mc = Some z.
Proof.
  induction errors as [|e rest IH]; intros seen x mc.
  - exists x. reflexivity.
  - simpl. destruct (Nat.leb mc _); apply IH.
Qed.

(** The send of [chat_] (lines 109-114) returns the response of the first
    successful attempt, provided it is among the first
    [bedrockRetries + 1] attempts and every attempt before it failed with
    an error that [pRetry] retries (an ordinary [Error] or a network
    [TypeError]). *)
Theorem send_outcome_first_success (env : Env) (message : string)
    (jsonSchema : option JsonSchema) (j : nat) (r : Response) :
  (j <= bedrockRetries env)%nat ->
  (forall k, (k < j)%nat -> exists m,
     retried (send env (command_params env message jsonSchema) k) m) ->
  send env (command_params env message jsonSchema) j = Done r ->
  send_outcome env message jsonSchema = Ok r.
Proof.
  intros Hj Hb Hok. unfold send_outcome, p_retry.
  apply (p_retry_loop_first_success _ _ 0 j); assumption.
Qed.

(** When the first [bedrockRetries + 1] attempts all fail with retried
    errors, the send throws an error whose message is the most frequent
    among the messages of those attempts ([operation.mainError()]), not
    necessarily the last one; later attempts are never made. *)
Theorem send_outcome_all_fail (env : Env) (message : string)
    (jsonSchema : option JsonSchema) (msg : nat -> string) :
  (forall k, (k <= bedrockRetries env)%nat ->
     retried (send env (command_params env message jsonSchema) k) (msg k)) ->
  let msgs := map msg (seq 0 (S (bedrockRetries env))) in
  exists m,
    send_outcome env message jsonSchema = Throw m /\
    mainError msgs = Some m /\
    In m msgs /\
    forall m', (count_occ string_dec msgs m' <= count_occ string_dec msgs m)%nat.
Proof.
  intros H msgs. unfold send_outcome, p_retry.
  rewrite (p_retry_loop_all_fail _ msg _ 0 []) by exact H.
  cbn [app]. fold msgs.
  destruct (mainError msgs) as [z|] eqn:Hz.
  - exists z. split; [reflexivity|]. split; [reflexivity|].
    exact (mainError_loop_spec msgs [] None 0 z (fun y => le_n 0)
             eq_refl Hz).
  - exfalso. unfold mainError, msgs in Hz. simpl in Hz.
    destruct (mainError_loop_some (map msg (seq 1 (bedrockRetries env)))
                [msg 0%nat] (msg 0%nat) 1) as [z Hz'].
    congruence.
Qed.

(** The send stops at the first attempt that fails with a non-network
    [TypeError], an [AbortError] or a thrown non-[Error], provided the
    attempts before it failed with retried errors: it throws that
    [TypeError], the [AbortError]'s original error, or a [TypeError]
    naming the thrown value, whatever the later attempts would give. *)
Theorem send_outcome_stops (env : Env) (message : string)
    (jsonSchema : option JsonSchema) (j : nat) (m : string) :
  (j <= bedrockRetries env)%nat ->
  (forall k, (k < j)%nat -> exists m',
     retried (send env (command_params env message jsonSchema) k) m') ->
  (send env (command_params env message jsonSchema) j
     = Failed (FTypeError m false) \/
   send env (command_params env message jsonSchema) j = Failed (FAbort m) \/
   exists v, send env (command_params env message jsonSchema) j
               = Failed (FNonError v) /\ m = non_error_message v) ->
  send_outcome env message jsonSchema = Throw m.
Proof.
  intros Hj Hb Hs. unfold send_outcome, p_retry.
  apply (p_retry_loop_stop _ _ 0 j); assumption.
Qed.

(** When the message is non-empty, the debug logging of the schema does
    not throw and the send succeeds, [chat] returns the normalised text
    and copies both correlation identifiers from the response metadata. *)
Theorem chat_success_ids (env : Env) (message : string)
    (jsonSchema : option JsonSchema) (r : Response) :
  truthy_str message = true ->
  (forall sch, jsonSchema = Some sch -> debug env = true ->
     exists str, json_stringify env (schema_doc sch) = Ok str) ->
  send_outcome env (prompt env message) jsonSchema = Ok r ->
  chat env message jsonSchema =
    (normalize env (Some r),
     mkIds (requestId (r_metadata r)) (cfId (r_metadata r))).
Proof.
  intros Hm Hlog Hs. unfold chat, chat_. rewrite Hm. simpl negb. cbv zeta.
  destruct (debug env) eqn:Hd.
  - destruct jsonSchema as [sch|].
    + destruct (Hlog sch eq_refl eq_refl) as [str Hstr]. rewrite Hstr.
      rewrite Hs. reflexivity.
    + rewrite Hs. reflexivity.
  - rewrite Hs. reflexivity.
Qed.

(** Normalisation in general: the result is the serialization of the last
    tool-call item ([""] when it fails to serialize), followed by the
    text fragments that come after it; other items are ignored. *)
Theorem normalize_last_tool (env : Env) (r : Response) (m : Message)
    (pre post : list ContentBlock) (input : Doc) :
  output_message r = Some m ->
  content m = Some (pre ++ CToolUse input :: post)%list ->
  no_tool post = true ->
  normalize env (Some r) =
    (match json_stringify env input with Ok s => s | Throw _ => "" end)
    ++ String.concat "" (texts_of post).
Proof.
  intros Hm Hc Hp. unfold normalize. rewrite Hm, Hc, fold_left_app.
  cbn [fold_left]. rewrite fold_no_tool by exact Hp. reflexivity.
Qed.

(** Without any tool-call item, the result is the in-order concatenation
    of the text fragments; items of other kinds are skipped. *)
Theorem normalize_no_tool (env : Env) (r : Response) (m : Message)
    (c : list ContentBlock) :
  output_message r = Some m ->
  content m = Some c ->
  no_tool c = true ->
  normalize env (Some r) = String.concat "" (texts_of c).
Proof.
  intros Hm Hc Hn. unfold normalize. rewrite Hm, Hc.
  rewrite fold_no_tool by exact Hn. reflexivity.
Qed.

End BotExtra.

(** * Further properties of [src/sopRetriever.ts] *)

Module SopExtra.
Import Sop Aux.

Lemma prefix_app (s1 s2 : string) :
  String.prefix s1 s2 = true <-> exists r, s2 = s1 ++ r.
Proof.
  revert s2; induction s1 as [|a s1 IH]; intro s2; simpl.
  - split; [intros _; exists s2; reflexivity | now destruct s2].
  - destruct s2 as [|b s2]; simpl.
    + split; [discriminate | intros [r Hr]; discriminate].
    + destruct (ascii_dec a b) as [<-|Hab].
      * rewrite IH. split; intros [r Hr]; exists r;
          [now rewrite Hr | now injection Hr].
      * split; [discriminate | intros [r Hr]; injection Hr; congruence].
Qed.

Lemma append_string_assoc (acc : string) (c : ascii) (q : string) :
  (acc ++ String c EmptyString) ++ q = acc ++ String c q.
Proof. induction acc as [|x acc IH]; simpl; [reflexivity | now rewrite IH]. Qed.

Lemma host_prefix_spec (h : string) :
  forall acc p,
  host_prefix acc h = Some p <->
  truthy_str p = true /\
  exists q rest, no_dot q = true /\ p = acc ++ q /\
                 h = q ++ "." ++ "svc." ++ rest.
Proof.
  induction h as [|c h IH]; intros acc p; simpl.
  - split; [discriminate|].
    intros [_ (q & rest & _ & _ & Hq)]. destruct q; discriminate.
  - destruct (Ascii.eqb_spec c ".") as [->|Hc].
    + split.
      * destruct (String.prefix "svc." h) eqn:Hp; simpl; [|discriminate].
        destruct (truthy_str acc) eqn:Ha; [|discriminate].
        intro H; injection H as <-. split; [exact Ha|].
        apply prefix_app in Hp as [r Hr].
        exists "", r. split; [reflexivity|].
        split; [now rewrite BotSpec.append_empty_r | simpl; now rewrite Hr].
      * intros [Ht (q & rest & Hq & Hpq & Hh)].
        destruct q as [|c' q].
        -- rewrite BotSpec.append_empty_r in Hpq. subst p.
           simpl in Hh. injection Hh as Hh.
           assert (Hp : String.prefix "svc." h = true)
             by (apply prefix_app; exists rest; exact Hh).
           rewrite Hp, Ht. reflexivity.
        -- simpl in Hh. injection Hh as Hc' _. subst c'.
           simpl in Hq. discriminate.
    + rewrite IH. split.
      * intros [Ht (q & rest & Hq & Hpq & Hh)]. split; [exact Ht|].
        exists (String c q), rest. split.
        -- simpl. rewrite Hq. destruct (Ascii.eqb_spec c "."); [congruence|].
           reflexivity.
        -- split; [now rewrite Hpq, append_string_assoc | now rewrite Hh].
      * intros [Ht (q & rest & Hq & Hpq & Hh)]. split; [exact Ht|].
        destruct q as [|c' q].
        -- simpl in Hh. injection Hh as Hc' _. congruence.
        -- simpl in Hh. injection Hh as <- Hh.
           simpl in Hq. apply andb_prop in Hq as [_ Hq].
           exists q, rest. split; [exact Hq|].
           split; [now rewrite Hpq, append_string_assoc | exact Hh].
Qed.

(** The index name taken from the host (line 45,
    [/^([^.]+)\.svc\./]): it is found exactly when the host starts with a
    non-empty dot-free segment followed by [.svc.], and it is that
    segment. *)
Theorem match_index_name_spec (host p : string) :
  match_index_name host = Some p <->
  p <> "" /\ no_dot p = true /\ exists rest, host = p ++ ".svc." ++ rest.
Proof.
  unfold match_index_name. rewrite host_prefix_spec. simpl. split.
  - intros [Ht (q & rest & Hq & -> & Hh)]. split.
    + destruct q; [discriminate | discriminate].
    + split; [exact Hq|]. exists rest. exact Hh.
  - intros [Hp [Hq [rest Hh]]]. split.
    + destruct p; [contradiction | reflexivity].
    + exists p, rest. auto.
Qed.

Lemma match_index_name_nonempty (host n : string) :
  match_index_name host = Some n -> truthy_str n = true.
Proof.
  intro H. apply match_index_name_spec in H as [Hn _].
  destruct n; [contradiction | reflexivity].
Qed.

Lemma initializePinecone_warm (w : World) (s : State) (c : handle) :
  pineconeClient s = Some c -> initializePinecone w s = (Ok tt, s).
Proof. intro Hc. unfold initializePinecone, bind, get. now rewrite Hc. Qed.

Lemma initializePinecone_cold (w : World) (s : State) :
  pineconeClient s = None ->
  truthy_str (getInput w "pinecone_api_key") = true ->
  initializePinecone w s =
    let key := getInput w "pinecone_api_key" in
    let name := resolved_index_name w in
    match new_pinecone w key with
    | Throw e => (Throw e, add_event s (EvNewPinecone key))
    | Ok c =>
        match client_index w c name with
        | Throw e =>
            (Throw e, mkState (embedder s) (Some c) (pineconeIndex s)
                              (trace s ++ [EvNewPinecone key; EvIndex name])%list)
        | Ok ix =>
            (Ok tt, mkState (embedder s) (Some c) (Some ix)
                            (trace s ++ [EvNewPinecone key; EvIndex name])%list)
        end
    end.
Proof.
  intros Hc Hk.
  unfold initializePinecone, bind, get, ask, catch_, call, modify, throw,
    set_client, set_index, add_event, resolved_index_name.
  rewrite Hc. cbv zeta. rewrite Hk.
  remember (match_index_name (getInput w "pinecone_host")) as mh eqn:Em.
  remember (getInput w "pinecone_host") as host eqn:Eh.
  remember (getInput w "pinecone_index") as ex eqn:Ei.
  simpl.
  assert (Hname :
    (if negb (truthy_str (if negb (truthy_str ex) && truthy_str host
                          then match mh with Some n => n | None => ex end
                          else ex))
     then "sop-embeddings"
     else if negb (truthy_str ex) && truthy_str host
          then match mh with Some n => n | None => ex end
          else ex)
    = (if truthy_str ex then ex
       else match mh with Some n => n | None => "sop-embeddings" end)).
  { destruct ex as [|c0 x0]; simpl; [|reflexivity].
    destruct mh as [n|].
    - pose proof (match_index_name_nonempty _ _ (eq_sym Em)) as Hn.
      destruct host as [|c1 x1].
      + discriminate.
      + simpl. now rewrite Hn.
    - destruct host; reflexivity. }
  rewrite Hname.
  destruct (new_pinecone w _) as [cl|e]; [|now rewrite Hc].
  destruct (client_index w cl _); simpl; now rewrite <- app_assoc.
Qed.

(** With no client yet and an API key set, initialization constructs the
    client and then opens the index named by the resolution order
    (explicit name, else host segment, else ["sop-embeddings"]); these
    two are the only external calls. *)
Theorem initializePinecone_connects (w : World) (s : State) (c ix : handle) :
  pineconeClient s = None ->
  truthy_str (getInput w "pinecone_api_key") = true ->
  new_pinecone w (getInput w "pinecone_api_key") = Ok c ->
  client_index w c (resolved_index_name w) = Ok ix ->
  initializePinecone w s =
    (Ok tt, mkState (embedder s) (Some c) (Some ix)
              (trace s ++ [EvNewPinecone (getInput w "pinecone_api_key");
                           EvIndex (resolved_index_name w)])%list).
Proof.
  intros Hc Hk Hn Hi. rewrite (initializePinecone_cold w s Hc Hk).
  cbv zeta. now rewrite Hn, Hi.
Qed.

(** Initialization is done at most once: after it has succeeded, running
    it again changes nothing and makes no external call. *)
Theorem initializePinecone_idempotent (w w' : World) (s s1 : State) (u : unit) :
  initializePinecone w s = (Ok u, s1) ->
  initializePinecone w' s1 = (Ok tt, s1).
Proof.
  intro H. destruct (pineconeClient s) as [c|] eqn:Hc.
  - rewrite (initializePinecone_warm w s c Hc) in H.
    injection H as _ <-. apply (initializePinecone_warm w' s c Hc).
  - destruct (truthy_str (getInput w "pinecone_api_key")) eqn:Hk.
    + rewrite (initializePinecone_cold w s Hc Hk) in H. cbv zeta in H.
      destruct (new_pinecone w _) as [cl|e]; [|discriminate].
      destruct (client_index w cl _) as [ix|e]; [|discriminate].
      injection H as _ <-. apply (initializePinecone_warm w' _ cl).
      reflexivity.
    + unfold initializePinecone, bind, get, ask in H. rewrite Hc in H.
      cbv zeta in H. rewrite Hk in H. discriminate.
Qed.

(** If opening the index fails after the client was constructed, the
    client stays set and the index stays null: initialization is never
    tried again, and every later retrieval returns [[]] without any
    external call. *)
Theorem index_failure_disables_retrieval (w : World) (s : State)
    (c : handle) (e : err) :
  pineconeClient s = None ->
  pineconeIndex s = None ->
  truthy_str (getInput w "pinecone_api_key") = true ->
  new_pinecone w (getInput w "pinecone_api_key") = Ok c ->
  client_index w c (resolved_index_name w) = Throw e ->
  let s1 := mkState (embedder s) (Some c) None
              (trace s ++ [EvNewPinecone (getInput w "pinecone_api_key");
                           EvIndex (resolved_index_name w)])%list in
  initializePinecone w s = (Throw e, s1) /\
  forall w' d, getRelevantSops d w' s1 = (Ok [], s1).
Proof.
  intros Hc Hix Hk Hn Hi s1. split.
  - rewrite (initializePinecone_cold w s Hc Hk). cbv zeta.
    rewrite Hn, Hi, Hix. reflexivity.
  - intros w' d. rewrite SopSpec.getRelevantSops_steps.
    rewrite (initializePinecone_warm w' s1 c eq_refl). reflexivity.
Qed.

Lemma embedText_warm_steps (w : World) (s : State) (h : handle) (t : string) :
  embedder s = Some h ->
  embedText t w s =
    (match run_embedder w h t with
     | Ok o => vector_of o
     | Throw e => Throw e
     end, add_event s (EvEmbed t)).
Proof.
  intro He. destruct s as [emb cl ix tr]; simpl in He; subst emb.
  unfold embedText, initializeEmbedder, catch_, bind, get, ret, throw,
    call, add_event; simpl.
  destruct (run_embedder w h t) as [o|x]; simpl; [|reflexivity].
  destruct (vector_of o); reflexivity.
Qed.

(** With the encoder constructed, [embedText] makes exactly one external
    call, the encoding itself; it rethrows that call's failure and
    otherwise returns the converted vector. *)
Theorem embedText_warm (w : World) (s : State) (h : handle) (t : string) :
  embedder s = Some h ->
  embedText t w s =
    (match run_embedder w h t with
     | Ok o => vector_of o
     | Throw e => Throw e
     end, add_event s (EvEmbed t)).
Proof. apply embedText_warm_steps. Qed.

(** On a cold encoder whose construction succeeds, [embedText] is the
    construction (one recorded call) followed by the warm path. *)
Theorem embedText_cold_success (w : World) (s : State) (h : handle)
    (t : string) :
  embedder s = None ->
  pipeline w = Ok h ->
  embedText t w s =
    embedText t w (mkState (Some h) (pineconeClient s) (pineconeIndex s)
                           (trace s ++ [EvPipeline])%list).
Proof.
  intros He Hp. destruct s as [emb cl ix tr]; simpl in He; subst emb.
  unfold embedText, initializeEmbedder, catch_, bind, get, ret, throw,
    call, modify, set_embedder; simpl. rewrite Hp. reflexivity.
Qed.

(** With client, index and encoder all initialized, [getRelevantSops]
    makes the embedding call and, when it yields a vector, one top-3
    query with metadata; it returns the mapped matches of a successful
    query and [[]] on any failure. *)
Theorem getRelevantSops_warm (d : string) (w : World) (s : State)
    (h c ix : handle) :
  embedder s = Some h ->
  pineconeClient s = Some c ->
  pineconeIndex s = Some ix ->
  getRelevantSops d w s =
    match run_embedder w h d with
    | Throw _ => (Ok [], add_event s (EvEmbed d))
    | Ok o =>
        match vector_of o with
        | Throw _ => (Ok [], add_event s (EvEmbed d))
        | Ok v =>
            let req := mkQuery v 3 true in
            let s' := add_event (add_event s (EvEmbed d)) (EvQuery req) in
            match index_query w ix req with
            | Throw _ => (Ok [], s')
            | Ok qr =>
                (Ok match matches qr with
                    | Some ms => map sop_of_match ms
                    | None => []
                    end, s')
            end
        end
    end.
Proof.
  intros He Hc Hi. rewrite SopSpec.getRelevantSops_steps.
  rewrite (initializePinecone_warm w s c Hc), Hi.
  rewrite (embedText_warm_steps w s h d He).
  destruct (run_embedder w h d) as [o|x]; [|reflexivity].
  destruct (vector_of o) as [v|x]; [|reflexivity]. cbv zeta.
  destruct (index_query w ix _) as [qr|x]; [|reflexivity].
  destruct (matches qr) as [[|m ms]|]; reflexivity.
Qed.

End SopExtra.

(** * Witnesses: the theorems applied at concrete inputs *)

Module Witnesses.
Import Bot Sop Aux Samples.

Lemma chat_failure_empty_witness :
  send_outcome env_down (prompt env_down "Review this diff") None
    = Throw "ServiceUnavailable" /\
  chat env_down "Review this diff" None = ("", ids_empty).
Proof.
  split; [reflexivity|].
  apply (BotSpec.chat_failure_empty env_down "Review this diff" None
           "ServiceUnavailable").
  right. reflexivity.
Defined.

Lemma normalize_text_then_tool_witness :
  normalize env_down
    (Some (response_of_content [CText "Here is the JSON"; CToolUse payload]))
  = payload_json.
Proof.
  apply (BotSpec.normalize_text_then_tool env_down _
           (message_of [CText "Here is the JSON"; CToolUse payload])
           [] "Here is the JSON" payload payload_json);
    reflexivity.
Defined.

Lemma normalize_only_text_witness :
  normalize env_down
    (Some (response_of_content [CText "ab"; CText ""; CText "c"])) = "abc".
Proof.
  apply (BotSpec.normalize_only_text env_down _
           (message_of [CText "ab"; CText ""; CText "c"]) ["ab"; ""; "c"]);
    reflexivity.
Defined.

Lemma step_tool_stringify_fails_witness :
  step env_down "partial" (CToolUse (DBigInt 1)) = "".
Proof.
  apply (BotSpec.step_tool_stringify_fails env_down "partial" (DBigInt 1)
           "Do not know how to serialize a BigInt").
  reflexivity.
Defined.

Lemma normalize_tool_then_text_witness :
  normalize env_down
    (Some (response_of_content [CToolUse payload; CText " done"]))
  = payload_json ++ " done".
Proof.
  apply (BotSpec.normalize_tool_then_text env_down _
           (message_of [CToolUse payload; CText " done"])
           [] payload payload_json " done");
    reflexivity.
Defined.

Lemma getRelevantSops_failures_empty_witness :
  fst (getRelevantSops "fix null pointer" world_index_fails state0) = Ok [].
Proof.
  apply SopSpec.getRelevantSops_failures_empty.
  left. exists "Index not found",
    (mkState None (Some 2%nat) None
             [EvNewPinecone "pk-test"; EvIndex "sop-embeddings"]).
  reflexivity.
Defined.

Lemma getRelevantSops_at_most_three_witness :
  exists sops,
    fst (getRelevantSops "fix null pointer" (world_seeded five_matches) state0)
      = Ok sops /\
    (length sops <= 3)%nat /\
    (sops = [] \/
     exists ix v qr ms,
       index_query (world_seeded five_matches) ix (mkQuery v 3 true) = Ok qr /\
       matches qr = Some ms /\ sops = map sop_of_match ms).
Proof.
  apply SopSpec.getRelevantSops_at_most_three.
  intros ix req qr ms Hq Hm. simpl in Hq. injection Hq as <-.
  simpl in Hm. injection Hm as <-. rewrite length_firstn. lia.
Defined.

Lemma initializePinecone_missing_key_witness :
  initializePinecone world_no_key state0 =
    (Throw "PINECONE_API_KEY environment variable is not set", state0).
Proof.
  apply SopSpec.initializePinecone_missing_key; reflexivity.
Defined.

Lemma embedText_construction_failure_witness :
  let s1 := mkState None (pineconeClient state0) (pineconeIndex state0)
                    (trace state0 ++ [EvPipeline])%list in
  embedText "a" world_model_fails state0 = (Throw "fetch failed", s1) /\
  embedder s1 = None /\
  fst (embedText "b" (world_seeded []) s1)
    = fst (embedText "b" (world_seeded []) state0) /\
  exists rest, trace (snd (embedText "b" (world_seeded []) s1)) =
               (trace s1 ++ EvPipeline :: rest)%list.
Proof.
  apply (SopSpec.embedText_construction_failure world_model_fails
           (world_seeded []) state0 "a" "b" "fetch failed");
    reflexivity.
Defined.

End Witnesses.

(** * Witnesses of the further properties *)

Module ExtraWitnesses.
Import Bot Sop Aux Samples.

Definition reply : Response := response_of_content [CText "LGTM"].

Lemma send_outcome_first_success_witness :
  send_outcome (env_flaky reply) "Review this diff" None = Ok reply.
Proof.
  apply (BotExtra.send_outcome_first_success (env_flaky reply)
           "Review this diff" None 1 reply).
  - simpl. lia.
  - intros k Hk. exists "ThrottlingException".
    assert (k = 0%nat) by lia. subst k. left. reflexivity.
  - reflexivity.
Defined.

Lemma send_outcome_all_fail_witness :
  send_outcome env_throttled "Review this diff" None
    = Throw "ThrottlingException".
Proof.
  destruct (BotExtra.send_outcome_all_fail env_throttled "Review this diff"
              None throttle_messages) as [m [Hs [Hm _]]].
  - intros k _. left. reflexivity.
  - vm_compute in Hm. injection Hm as <-. exact Hs.
Defined.

Lemma send_outcome_stops_witness :
  send_outcome (env_type_error reply) "Review this diff" None
    = Throw "x is not a function".
Proof.
  apply (BotExtra.send_outcome_stops (env_type_error reply)
           "Review this diff" None 1 "x is not a function").
  - simpl. lia.
  - intros k Hk. exists "ThrottlingException".
    assert (k = 0%nat) by lia. subst k. left. reflexivity.
  - left. reflexivity.
Defined.

Lemma chat_success_ids_witness :
  chat (env_up reply) "Review this diff" (Some sample_schema) =
    ("LGTM", mkIds (Some "req-1") (Some "cf-1")).
Proof.
  apply (BotExtra.chat_success_ids (env_up reply) "Review this diff"
           (Some sample_schema) reply).
  - reflexivity.
  - intros sch Hs _. injection Hs as <-. exists payload_json. reflexivity.
  - reflexivity.
Defined.

Lemma normalize_last_tool_witness :
  normalize env_down
    (Some (response_of_content
             [CText "a"; CToolUse payload; COther; CText "b"]))
  = payload_json ++ "b".
Proof.
  apply (BotExtra.normalize_last_tool env_down _
           (message_of [CText "a"; CToolUse payload; COther; CText "b"])
           [CText "a"] [COther; CText "b"] payload); reflexivity.
Defined.

Lemma normalize_no_tool_witness :
  normalize env_down
    (Some (response_of_content [CText "a"; COther; CText "b"])) = "ab".
Proof.
  apply (BotExtra.normalize_no_tool env_down _
           (message_of [CText "a"; COther; CText "b"])
           [CText "a"; COther; CText "b"]); reflexivity.
Defined.

Lemma initializePinecone_connects_witness :
  initializePinecone world_host state0 =
    (Ok tt, mkState None (Some 2%nat) (Some 3%nat)
              [EvNewPinecone "pk-test"; EvIndex "sop-embeddings-2vib48a"]).
Proof.
  apply (SopExtra.initializePinecone_connects world_host state0 2%nat 3%nat);
    reflexivity.
Defined.

Lemma initializePinecone_idempotent_witness :
  initializePinecone world_no_key
    (mkState None (Some 2%nat) (Some 3%nat)
             [EvNewPinecone "pk-test"; EvIndex "sop-embeddings"]) =
    (Ok tt, mkState None (Some 2%nat) (Some 3%nat)
                    [EvNewPinecone "pk-test"; EvIndex "sop-embeddings"]).
Proof.
  apply (SopExtra.initializePinecone_idempotent (world_seeded []) world_no_key
           state0 _ tt).
  reflexivity.
Defined.

Lemma index_failure_disables_retrieval_witness :
  let s1 := mkState None (Some 2%nat) None
              [EvNewPinecone "pk-test"; EvIndex "sop-embeddings"] in
  initializePinecone world_index_fails state0 = (Throw "Index not found", s1) /\
  forall w' d, getRelevantSops d w' s1 = (Ok [], s1).
Proof.
  apply (SopExtra.index_failure_disables_retrieval world_index_fails state0
           2%nat "Index not found"); reflexivity.
Defined.

Lemma embedText_warm_witness :
  embedText "fix null pointer" (world_seeded []) state_warm =
    (Ok [1 # 2; 1 # 2], mkState (Some 1%nat) (Some 2%nat) (Some 3%nat)
                                [EvEmbed "fix null pointer"]).
Proof.
  apply (SopExtra.embedText_warm (world_seeded []) state_warm 1%nat
           "fix null pointer"); reflexivity.
Defined.

Lemma embedText_cold_success_witness :
  embedText "fix null pointer" (world_seeded []) state0 =
    embedText "fix null pointer" (world_seeded [])
      (mkState (Some 1%nat) None None [EvPipeline]).
Proof.
  apply (SopExtra.embedText_cold_success (world_seeded []) state0 1%nat
           "fix null pointer"); reflexivity.
Defined.

Lemma getRelevantSops_warm_witness :
  fst (getRelevantSops "fix null pointer" (world_seeded five_matches)
                       state_warm)
  = Ok (map sop_of_match (firstn 3 five_matches)).
Proof.
  rewrite (SopExtra.getRelevantSops_warm "fix null pointer"
             (world_seeded five_matches) state_warm 1%nat 2%nat 3%nat)
    by reflexivity.
  reflexivity.
Defined.

End ExtraWitnesses.
